(** * Verification of [slither_api_example.py]

    A shallow embedding of
    [packages/contracts-bedrock/slither_api_example.py], the script that
    checks the integrity of [OptimismPortal.depositTransaction] over the
    analyzer's model of the contracts, and the theorems about it.

    The analyzer (the [slither] library) is not part of the repository: its
    objects are modelled by the attributes the script reads, and its lookup
    method is a field of the [Slither] record. *)

From Stdlib Require Import String Ascii List ZArith Bool Lia.
From Stdlib Require Import Permutation Sorted OrderedTypeEx.
Import ListNotations.

Local Open Scope string_scope.
Local Open Scope Z_scope.

(** ** The part of the Python runtime the script relies on *)

Module Py.

(** The exceptions the script raises itself ([LookupError], [ValueError]),
    and the two the interpreter raises on a bad subscript or on using
    [None] as a sequence. *)
Inductive Exception : Type :=
| LookupError (msg : string)
| ValueError (msg : string)
| IndexError
| TypeError.

(** A computation that returns or raises. *)
Inductive Exc (A : Type) : Type :=
| Ret (a : A)
| Raise (e : Exception).
Arguments Ret {A} a.
Arguments Raise {A} e.

Definition bind {A B : Type} (c : Exc A) (k : A -> Exc B) : Exc B :=
  match c with
  | Ret a => k a
  | Raise e => Raise e
  end.

(** A computation that also writes lines to the standard output: the lines
    printed so far, and how it ended. *)
Definition IO (A : Type) : Type := (list string * Exc A)%type.

Definition io_bind {A B : Type} (c : IO A) (k : A -> IO B) : IO B :=
  match c with
  | (out, Ret a) => let (out', r) := k a in (out ++ out', r)%list
  | (out, Raise e) => (out, Raise e)
  end.

Definition print (line : string) : IO unit := ([line], Ret tt).
Definition raise {A : Type} (e : Exception) : IO A := ([], Raise e).
Definition lift {A : Type} (c : Exc A) : IO A := ([], c).

(** [len(l)] *)
Definition len {A : Type} (l : list A) : Z := Z.of_nat (length l).

(** [l[i]]: a negative index counts from the end, an index out of range
    raises [IndexError]. *)
Definition getitem {A : Type} (l : list A) (i : Z) : Exc A :=
  let j := if i <? 0 then i + len l else i in
  if (j <? 0) || (len l <=? j) then Raise IndexError
  else match nth_error l (Z.to_nat j) with
       | Some x => Ret x
       | None => Raise IndexError
       end.

(** Using a value that may be [None] as a sequence ([len(x)], [x[i]]):
    [None] raises [TypeError]. *)
Definition as_list {A : Type} (x : option (list A)) : Exc (list A) :=
  match x with
  | Some l => Ret l
  | None => Raise TypeError
  end.

(** [sorted(l)] on a list of [str]: the list in ascending order, strings
    compared character by character. *)
Fixpoint insert (s : string) (l : list string) : list string :=
  match l with
  | [] => [s]
  | t :: l' => if String.leb s t then s :: l else t :: insert s l'
  end.

Definition sorted (l : list string) : list string :=
  fold_right insert [] l.

(** [a != b] on lists of [str] *)
Definition list_ne (a b : list string) : bool :=
  if list_eq_dec string_dec a b then false else true.

(** The values a literal can hold. *)
Inductive Value : Type :=
| Int (z : Z)
| Bool (b : bool)
| Str (s : string).

(** [v != z] for an [int] [z]: a [bool] is an [int] in Python
    ([False == 0]), a [str] never equals an [int]. *)
Definition ne_int (v : Value) (z : Z) : bool :=
  match v with
  | Int n => negb (n =? z)
  | Bool b => negb ((if b then 1 else 0) =? z)
  | Str _ => true
  end.

End Py.

Import Py.

Declare Scope exc_scope.
Delimit Scope exc_scope with exc.
Notation "x <- c ;; k" := (bind c (fun x => k))
  (at level 61, c at next level, right associativity) : exc_scope.

Declare Scope io_scope.
Delimit Scope io_scope with io.
Notation "x <- c ;; k" := (io_bind c (fun x => k))
  (at level 61, c at next level, right associativity) : io_scope.
Notation "c ;; k" := (io_bind c (fun _ => k))
  (at level 61, right associativity) : io_scope.

(** ** The analyzer's model, as the script reads it *)

(** [slither.core.cfg.node.NodeType]: the three kinds the script tests for,
    and the others. *)
Inductive NodeType : Type :=
| IF
| ENDIF
| EXPRESSION
| OTHERNODE (tag : nat).

Definition NodeType_eqb (a b : NodeType) : bool :=
  match a, b with
  | IF, IF | ENDIF, ENDIF | EXPRESSION, EXPRESSION => true
  | OTHERNODE m, OTHERNODE n => Nat.eqb m n
  | _, _ => false
  end.

(** [slither.slithir.operations.BinaryType] *)
Inductive BinaryType : Type :=
| POWER | MULTIPLICATION | DIVISION | MODULO | ADDITION | SUBTRACTION
| LEFT_SHIFT | RIGHT_SHIFT | AND | CARET | OR
| LESS | GREATER | LESS_EQUAL | GREATER_EQUAL | EQUAL | NOT_EQUAL
| ANDAND | OROR.

Definition BinaryType_eqb (a b : BinaryType) : bool :=
  match a, b with
  | POWER, POWER | MULTIPLICATION, MULTIPLICATION | DIVISION, DIVISION
  | MODULO, MODULO | ADDITION, ADDITION | SUBTRACTION, SUBTRACTION
  | LEFT_SHIFT, LEFT_SHIFT | RIGHT_SHIFT, RIGHT_SHIFT | AND, AND
  | CARET, CARET | OR, OR | LESS, LESS | GREATER, GREATER
  | LESS_EQUAL, LESS_EQUAL | GREATER_EQUAL, GREATER_EQUAL
  | EQUAL, EQUAL | NOT_EQUAL, NOT_EQUAL | ANDAND, ANDAND | OROR, OROR => true
  | _, _ => false
  end.

(** What [isinstance] tells about a variable, with the attributes read
    from it: a [LocalVariable] has a [name], a [Constant] a [value]; a
    temporary has the index it prints as ([TMP_n]). *)
Inductive VariableClass : Type :=
| LocalVariable (name : string)
| Constant (value : Value)
| TemporaryVariable (index : nat)
| OtherVariable.

(** A variable object: [var_id] is the identity of the object, the address
    Python's default [==] and [!=] compare. Two objects of the same class
    with the same attributes are still two objects. *)
Record Var : Type := mkVar {
  var_id : nat;
  var_class : VariableClass
}.

(** [a != b] on variable objects: not the same object. *)
Definition var_ne (a b : Var) : bool :=
  negb (Nat.eqb (var_id a) (var_id b)).

(** The IR operations, by the class [isinstance] finds and the attributes
    the script reads: [Condition.value]; [TypeConversion.variable],
    [.type.name] and [.lvalue]; [Binary.type], [.variable_left],
    [.variable_right] and [.lvalue]; [SolidityCall.function.full_name] and
    [.arguments]. *)
Inductive Operation : Type :=
| Condition (value : Var)
| TypeConversion (variable : Var) (type_name : string) (lvalue : Var)
| Binary (type : BinaryType) (variable_left variable_right : Var)
         (lvalue : Var)
| SolidityCall (function_full_name : string) (arguments : list Var)
| OtherOperation (tag : nat).

(** A CFG node: [node.type], [node.irs] (which the script expects may be
    [None]) and [node.sons]. The script reads the sons of a node and never
    the sons of a son. *)
#[local] Set Warnings "-register-all".
Inductive Node : Type := mkNode {
  node_type : NodeType;
  node_irs : option (list Operation);
  node_sons : list Node
}.

(** A function: [f.name], [f.nodes] and [f.high_level_calls], the pairs
    (contract, function) of which the script reads the two names. *)
Record Function : Type := mkFunction {
  function_name : string;
  function_nodes : list Node;
  function_high_level_calls : list (string * string)
}.

Record Contract : Type := mkContract {
  contract_name : string;
  contract_functions : list Function
}.

(** The analyzer object, by its one method the script calls:
    [slither.get_contract_from_name(name)], a list of contracts or [None]. *)
Record Slither : Type := mkSlither {
  get_contract_from_name : string -> option (list Contract)
}.

(** ** The script: [test_deposit_transaction_integrity] *)

Definition OUT_RUNNING : string :=
  "Running OptimismPortal.depositTransaction() test...".
Definition OUT_PASSED : string := "Test passed".

Definition MSG_NO_CONTRACT : string :=
  "Could not find OptimismPortal contract".
Definition MSG_NO_FUNCTION : string :=
  "Could not find OptimismPortal.depositTransaction function".
Definition MSG_NEW_CALL : string :=
  "OptimismPortal.depositTransaction has had a new high level call added.".
Definition MSG_NO_CHECK : string :=
  "Could not find the _isCreation if-statement + require check in " ++
  "OptimismPortal.depositTransaction".

(** The expected outgoing calls, the list the script compares with. *)
Definition EXPECTED_CALLS : list string :=
  ["AddressAliasHelper.applyL1ToL2Alias"].

(** ["{}.{}".format(c.name, f.name)] *)
Definition format_call (call : string * string) : string :=
  fst call ++ "." ++ snd call.

(** [sorted(actual) != sorted(expected)], the test of line 88. *)
Definition calls_differ (actual expected : list string) : bool :=
  list_ne (sorted actual) (sorted expected).

(** The body of the loop [for node in deposit_function.nodes] (lines 95 to
    171), from the value of [found_creation_check] before the iteration to
    its value after it. Every [continue] of the source leaves the flag as it
    is; the last line sets it. *)
Definition loop_body (node : Node) (found_creation_check : bool) : Exc bool :=
  let continue := Ret found_creation_check in
  (if negb (NodeType_eqb (node_type node) IF) then continue else
   match node_irs node with
   | None => continue
   | Some irs =>
   if len irs =? 0 then continue else
   condition_ir <- getitem irs 0 ;;
   match condition_ir with
   | Condition condition_value =>
   match var_class condition_value with
   | LocalVariable name =>
   if negb (name =? "_isCreation")%string then continue else
   if negb (len (node_sons node) =? 2) then continue else
   last_son <- getitem (node_sons node) (-1) ;;
   if negb (NodeType_eqb (node_type last_son) ENDIF) then continue else
   first_son <- getitem (node_sons node) 0 ;;
   if negb (NodeType_eqb (node_type first_son) EXPRESSION) then continue else
   require_expression_node <- getitem (node_sons node) 0 ;;
   require_irs <- as_list (node_irs require_expression_node) ;;
   if negb (len require_irs =? 3) then continue else
   type_conversion_ir <- getitem require_irs 0 ;;
   match type_conversion_ir with
   | TypeConversion type_conversion_constant type_name type_conversion_lvalue =>
   match var_class type_conversion_constant with
   | Constant value =>
   if ne_int value 0 || negb (type_name =? "address")%string
   then continue else
   binary_ir <- getitem require_irs 1 ;;
   match binary_ir with
   | Binary binary_type variable_left variable_right binary_lvalue =>
   if negb (BinaryType_eqb binary_type EQUAL) then continue else
   if var_ne variable_right type_conversion_lvalue then continue else
   match var_class variable_left with
   | LocalVariable local_name =>
   if negb (local_name =? "_to")%string then continue else
   solidity_call_ir <- getitem require_irs 2 ;;
   match solidity_call_ir with
   | SolidityCall full_name arguments =>
   if negb (full_name =? "require(bool,string)")%string
      || (len arguments <? 1)
   then continue else
   argument0 <- getitem arguments 0 ;;
   if var_ne argument0 binary_lvalue then continue else
   Ret true
   | _ => continue
   end
   | _ => continue
   end
   | _ => continue
   end
   | _ => continue
   end
   | _ => continue
   end
   | _ => continue
   end
   | _ => continue
   end
   end)%exc.

(** The loop of lines 93 to 171: the flag starts at [False] and every node
    is visited, the loop has no [break]. *)
Fixpoint for_nodes (nodes : list Node) (found_creation_check : bool)
  : Exc bool :=
  match nodes with
  | [] => Ret found_creation_check
  | node :: rest =>
      (found <- loop_body node found_creation_check ;;
       for_nodes rest found)%exc
  end.

Definition find_creation_check (deposit_function : Function) : Exc bool :=
  for_nodes (function_nodes deposit_function) false.

(** [next((f for f in portal.functions if f.name == "depositTransaction"),
    None)] *)
Definition find_deposit_function (portal : Contract) : option Function :=
  find (fun f => (function_name f =? "depositTransaction")%string)
       (contract_functions portal).

Definition test_deposit_transaction_integrity (slither : Slither) : IO unit :=
  (print OUT_RUNNING ;;
   match get_contract_from_name slither "OptimismPortal" with
   | None => raise (LookupError MSG_NO_CONTRACT)
   | Some discovered_contracts =>
   if len discovered_contracts <? 1
   then raise (LookupError MSG_NO_CONTRACT) else
   portal <- lift (getitem discovered_contracts 0) ;;
   match find_deposit_function portal with
   | None => raise (LookupError MSG_NO_FUNCTION)
   | Some deposit_function =>
   let high_level_calls :=
     map format_call (function_high_level_calls deposit_function) in
   if calls_differ high_level_calls EXPECTED_CALLS
   then raise (ValueError MSG_NEW_CALL) else
   found_creation_check <- lift (find_creation_check deposit_function) ;;
   if negb found_creation_check
   then raise (LookupError MSG_NO_CHECK)
   else print OUT_PASSED
   end
   end)%io.

(** ** What one iteration accepts, as a shape

    [accepts node] is the shape of a node on which the loop body reaches its
    last line; [reads_None node] is the shape on which it takes [len] of a
    missing IR list (line 131). Both are related to [loop_body] by lemma
    [loop_body_spec] below. *)

Definition accepts (node : Node) : bool :=
  match node with
  | mkNode IF (Some (Condition (mkVar _ (LocalVariable name)) :: _))
      [mkNode EXPRESSION
         (Some [TypeConversion (mkVar _ (Constant value)) type_name tmp;
                Binary EQUAL (mkVar _ (LocalVariable local_name)) rhs result;
                SolidityCall full_name (argument0 :: _)]) _;
       mkNode ENDIF _ _] =>
      (name =? "_isCreation")%string && negb (ne_int value 0)
      && (type_name =? "address")%string && negb (var_ne rhs tmp)
      && (local_name =? "_to")%string
      && (full_name =? "require(bool,string)")%string
      && negb (var_ne argument0 result)
  | _ => false
  end.

Definition reads_None (node : Node) : bool :=
  match node with
  | mkNode IF (Some (Condition (mkVar _ (LocalVariable name)) :: _))
      [mkNode EXPRESSION None _; mkNode ENDIF _ _] =>
      (name =? "_isCreation")%string
  | _ => false
  end.

(** The node of the pass scenario: an [IF] node whose first IR operation is
    a [Condition] on a local [_isCreation], with the two sons [EXPRESSION]
    and [ENDIF], the first carrying the conversion of the literal 0 to
    [address], the comparison [_to == ] that temporary and the call of
    [require] on the result of the comparison. "The same temporary" is the
    same object: the same [var_id]. *)
Inductive guarded_require : Node -> Prop :=
| guarded_require_intro
    (guard zero tmp to_ rhs result argument0 : Var)
    (more_irs : list Operation) (more_arguments : list Var)
    (expression_sons end_sons : list Node)
    (end_irs : option (list Operation)) :
    var_class guard = LocalVariable "_isCreation" ->
    var_class zero = Constant (Int 0) ->
    var_class to_ = LocalVariable "_to" ->
    var_id rhs = var_id tmp ->
    var_id argument0 = var_id result ->
    guarded_require
      (mkNode IF (Some (Condition guard :: more_irs))
         [mkNode EXPRESSION
            (Some [TypeConversion zero "address" tmp;
                   Binary EQUAL to_ rhs result;
                   SolidityCall "require(bool,string)"
                     (argument0 :: more_arguments)])
            expression_sons;
          mkNode ENDIF end_irs end_sons]).

(** A well-formed model gives every son of a node of the function a list of
    IR operations (the analyzer initialises [irs] to the empty list). *)
Definition irs_present (node : Node) : bool :=
  match node_irs node with
  | Some _ => true
  | None => false
  end.

Definition well_formed_node (node : Node) : bool :=
  forallb irs_present (node_sons node).

Definition well_formed (f : Function) : bool :=
  forallb well_formed_node (function_nodes f).

(** A node with the two operands of the [Binary] operations of its sons
    exchanged, everything else as it is. *)
Definition swap_operation (op : Operation) : Operation :=
  match op with
  | Binary type variable_left variable_right lvalue =>
      Binary type variable_right variable_left lvalue
  | _ => op
  end.

Definition swap_son (son : Node) : Node :=
  mkNode (node_type son)
         (option_map (map swap_operation) (node_irs son))
         (node_sons son).

Definition swap_operands (node : Node) : Node :=
  mkNode (node_type node) (node_irs node) (map swap_son (node_sons node)).

(** The order [sorted] sorts by. *)
Definition le (s t : string) : Prop := String.leb s t = true.

(** [needle in text] *)
Definition mentions (needle text : string) : bool :=
  match index 0 needle text with
  | Some _ => true
  | None => false
  end.

(** How a failed lookup of the contract shows: [None] or an empty list. *)
Definition contract_missing (slither : Slither) : Prop :=
  get_contract_from_name slither "OptimismPortal" = None \/
  get_contract_from_name slither "OptimismPortal" = Some [].

(** The function the script verifies: the first function named
    [depositTransaction] of the first contract the lookup returns. *)
Definition deposit_function_of (slither : Slither) (f : Function) : Prop :=
  exists portal others,
    get_contract_from_name slither "OptimismPortal" = Some (portal :: others)
    /\ find_deposit_function portal = Some f.

(** The contract is found and has no function [depositTransaction]. *)
Definition function_missing (slither : Slither) : Prop :=
  exists portal others,
    get_contract_from_name slither "OptimismPortal" = Some (portal :: others)
    /\ find_deposit_function portal = None.

(** The outgoing calls of a function, as the script compares them. *)
Definition high_level_calls (f : Function) : list string :=
  map format_call (function_high_level_calls f).

(** ** The models of the scenarios *)

Module Scenario.

Definition is_creation : Var := mkVar 1 (LocalVariable "_isCreation").
Definition to_ : Var := mkVar 2 (LocalVariable "_to").
Definition zero : Var := mkVar 3 (Constant (Int 0)).
Definition tmp_address : Var := mkVar 4 (TemporaryVariable 0).
Definition tmp_equal : Var := mkVar 5 (TemporaryVariable 1).
Definition message : Var := mkVar 6 (Constant (Str "must send to address(0)")).
(** A second temporary that prints as [tmp_address] does, and is another
    object. *)
Definition tmp_other : Var := mkVar 7 (TemporaryVariable 0).

Definition convert : Operation := TypeConversion zero "address" tmp_address.
Definition compare (op : BinaryType) (l r : Var) : Operation :=
  Binary op l r tmp_equal.
Definition require (arg : Var) : Operation :=
  SolidityCall "require(bool,string)" [arg; message].

Definition require_irs : list Operation :=
  [convert; compare EQUAL to_ tmp_address; require tmp_equal].

Definition end_if : Node := mkNode ENDIF (Some []) [].
Definition expression (irs : list Operation) : Node :=
  mkNode EXPRESSION (Some irs) [end_if].
Definition if_node (irs : list Operation) : Node :=
  mkNode IF (Some [Condition is_creation]) [expression irs; end_if].
Definition entry : Node := mkNode (OTHERNODE 0) (Some []) [].

Definition alias_call : string * string :=
  ("AddressAliasHelper", "applyL1ToL2Alias").

Definition deposit (nodes : list Node) (calls : list (string * string))
  : Function :=
  mkFunction "depositTransaction" nodes calls.

Definition model (f : Function) : Slither :=
  mkSlither (fun name =>
    Some (if (name =? "OptimismPortal")%string
          then [mkContract "OptimismPortal" [f]] else [])).

Definition pass_model : Slither :=
  model (deposit [entry; if_node require_irs; end_if] [alias_call]).

(** The comparison written [address(0) == _to]. *)
Definition swapped_irs : list Operation :=
  [convert; compare EQUAL tmp_address to_; require tmp_equal].

(** The pass scenario with one more outgoing call, and with none. *)
Definition other_call : string * string := ("Other", "helper").

Definition extra_call_model : Slither :=
  model (deposit [entry; if_node require_irs; end_if]
                 [alias_call; other_call]).

Definition missing_call_model : Slither :=
  model (deposit [entry; if_node require_irs; end_if] []).

(** An [IF] node on [_isCreation] whose first son has no IR list. *)
Definition bare_if : Node :=
  mkNode IF (Some [Condition is_creation])
         [mkNode EXPRESSION None []; end_if].

(** A function without any [IF] node. *)
Definition straight_line : Function :=
  deposit [entry; expression require_irs; end_if] [alias_call].

End Scenario.

(** ** Shapes for the two outcomes of an iteration, spelled out

    [checked_require node]: what line 171 is reached on. It is
    [guarded_require] with the tests as the script makes them: the literal
    is any value Python finds equal to 0. *)
Inductive checked_require : Node -> Prop :=
| checked_require_intro
    (guard zero tmp to_ rhs result argument0 : Var) (value : Value)
    (more_irs : list Operation) (more_arguments : list Var)
    (expression_sons end_sons : list Node)
    (end_irs : option (list Operation)) :
    var_class guard = LocalVariable "_isCreation" ->
    var_class zero = Constant value ->
    ne_int value 0 = false ->
    var_class to_ = LocalVariable "_to" ->
    var_id rhs = var_id tmp ->
    var_id argument0 = var_id result ->
    checked_require
      (mkNode IF (Some (Condition guard :: more_irs))
         [mkNode EXPRESSION
            (Some [TypeConversion zero "address" tmp;
                   Binary EQUAL to_ rhs result;
                   SolidityCall "require(bool,string)"
                     (argument0 :: more_arguments)])
            expression_sons;
          mkNode ENDIF end_irs end_sons]).

(** [missing_irs node]: an [IF] node on [_isCreation] with the two sons
    [EXPRESSION] and [ENDIF], the first without a list of IR operations. *)
Inductive missing_irs : Node -> Prop :=
| missing_irs_intro
    (guard : Var) (more_irs : list Operation)
    (expression_sons end_sons : list Node)
    (end_irs : option (list Operation)) :
    var_class guard = LocalVariable "_isCreation" ->
    missing_irs
      (mkNode IF (Some (Condition guard :: more_irs))
         [mkNode EXPRESSION None expression_sons;
          mkNode ENDIF end_irs end_sons]).

(** ** The other function: [print_echidna_property_tests] *)

(** A function, by the attributes the scan reads: [name], [full_name],
    [view], [pure], [visibility] and, of a constructor, [signature], the
    tuple (name, parameter types, return types). *)
Record ScanFunction : Type := mkScanFunction {
  scan_name : string;
  scan_full_name : string;
  scan_view : bool;
  scan_pure : bool;
  scan_visibility : string;
  scan_signature : string * list string * list string
}.

(** A contract, by the attributes the scan reads: [name], [constructor]
    (a function or [None]), [functions] and [immediate_inheritance].
    [scan_id] is the identity of the object: the analyzer's contracts hash
    by their id and compare equal to no other contract, so membership in a
    [set] of contracts is membership of the identity. *)
Inductive ScanContract : Type := mkScanContract {
  scan_id : nat;
  scan_contract_name : string;
  scan_constructor : option ScanFunction;
  scan_functions : list ScanFunction;
  scan_immediate_inheritance : list ScanContract
}.

(** The analyzer object as [__main__] holds it: [slither.contracts] for the
    scan, and the lookup method the integrity test calls. *)
Record Analyzer : Type := mkAnalyzer {
  contracts : list ScanContract;
  lookup : Slither
}.

Definition NEWLINE : string := String "010"%char EmptyString.
Definition TAB : string := String "009"%char EmptyString.

Definition OUT_ECHIDNA : string := "Echidna property tests:".
Definition OUT_PROPERTY_TESTS : string := "Property Tests:".

(** [contract in echidna_test_contracts] *)
Definition in_set (contract : ScanContract) (set : list nat) : bool :=
  existsb (Nat.eqb (scan_id contract)) set.

(** [contract.constructor is not None and
    len(contract.constructor.signature[1]) > 0] *)
Definition has_constructor_arguments (contract : ScanContract) : bool :=
  match scan_constructor contract with
  | Some constructor => 0 <? len (snd (fst (scan_signature constructor)))
  | None => false
  end.

(** ["\nContract: {} (inherits from: {})".format(contract.name,
    inherited_str or "<none>")], with [inherited_str] the names of the
    immediate parents joined by [", "]. *)
Definition contract_header (contract : ScanContract) : string :=
  let inherited_str :=
    String.concat ", " (map scan_contract_name
                     (scan_immediate_inheritance contract)) in
  NEWLINE ++ "Contract: " ++ scan_contract_name contract
  ++ " (inherits from: "
  ++ (if (inherited_str =? "")%string then "<none>" else inherited_str)
  ++ ")".

(** ["\t-{}.{}".format(contract.name, function.full_name)] *)
Definition test_line (contract : ScanContract) (function : ScanFunction)
  : string :=
  TAB ++ "-" ++ scan_contract_name contract ++ "." ++ scan_full_name function.

(** The body of the loop over the functions of a contract (lines 31 to 52),
    from the set [echidna_test_contracts] before the iteration to the set
    after it. *)
Definition scan_function (contract : ScanContract) (function : ScanFunction)
           (echidna_test_contracts : list nat) : IO (list nat) :=
  let continue := lift (Ret echidna_test_contracts) in
  (if negb (String.prefix "echidna_" (scan_name function))
   then continue else
   if negb (scan_view function) && negb (scan_pure function)
   then continue else
   if negb (scan_visibility function =? "public")%string then continue else
   set <- (if negb (in_set contract echidna_test_contracts)
           then print (contract_header contract) ;;
                print OUT_PROPERTY_TESTS ;;
                lift (Ret (scan_id contract :: echidna_test_contracts))
           else lift (Ret echidna_test_contracts)) ;;
   print (test_line contract function) ;;
   lift (Ret set))%io.

Fixpoint for_functions (contract : ScanContract)
         (functions : list ScanFunction) (echidna_test_contracts : list nat)
  : IO (list nat) :=
  match functions with
  | [] => lift (Ret echidna_test_contracts)
  | function :: rest =>
      (set <- scan_function contract function echidna_test_contracts ;;
       for_functions contract rest set)%io
  end.

(** The body of the loop over the contracts (lines 26 to 52). *)
Definition scan_contract (contract : ScanContract)
           (echidna_test_contracts : list nat) : IO (list nat) :=
  if has_constructor_arguments contract
  then lift (Ret echidna_test_contracts)
  else for_functions contract (scan_functions contract)
                     echidna_test_contracts.

Fixpoint for_contracts (cs : list ScanContract)
         (echidna_test_contracts : list nat) : IO (list nat) :=
  match cs with
  | [] => lift (Ret echidna_test_contracts)
  | contract :: rest =>
      (set <- scan_contract contract echidna_test_contracts ;;
       for_contracts rest set)%io
  end.

Definition print_echidna_property_tests (slither : Analyzer) : IO unit :=
  (print OUT_ECHIDNA ;;
   _ <- for_contracts (contracts slither) [] ;;
   print "")%io.

(** The two calls of [__main__], on the analyzer object [s] it has built. *)
Definition main (s : Analyzer) : IO unit :=
  (print_echidna_property_tests s ;;
   test_deposit_transaction_integrity (lookup s))%io.

(** What the scan lists, read off the three tests of the inner loop and
    the test of the outer one. *)
Definition is_property_test (function : ScanFunction) : bool :=
  String.prefix "echidna_" (scan_name function)
  && (scan_view function || scan_pure function)
  && (scan_visibility function =? "public")%string.

Definition property_tests (contract : ScanContract) : list ScanFunction :=
  filter is_property_test (scan_functions contract).

Definition deployable (contract : ScanContract) : bool :=
  negb (has_constructor_arguments contract).

(** The lines of one contract: nothing without property tests, and
    otherwise its header, the heading and one line for each test. *)
Definition contract_block (contract : ScanContract) : list string :=
  if deployable contract
  then match property_tests contract with
       | [] => []
       | tests => contract_header contract :: OUT_PROPERTY_TESTS
                  :: map (test_line contract) tests
       end
  else [].

(** The lines that list a test: those that start with a tab and a dash. *)
Definition is_test_line (line : string) : bool :=
  String.prefix (TAB ++ "-") line.

(** The lines that list the tests of one contract. *)
Definition listed_lines (contract : ScanContract) : list string :=
  if deployable contract
  then map (test_line contract) (property_tests contract)
  else [].

Module ScanScenario.

Definition echidna_balance : ScanFunction :=
  mkScanFunction "echidna_balance" "echidna_balance()" true false "public"
                 ("echidna_balance", [], ["bool"]).
Definition echidna_internal : ScanFunction :=
  mkScanFunction "echidna_hidden" "echidna_hidden()" true false "internal"
                 ("echidna_hidden", [], ["bool"]).
Definition echidna_writes : ScanFunction :=
  mkScanFunction "echidna_writes" "echidna_writes()" false false "public"
                 ("echidna_writes", [], ["bool"]).
Definition echidna_pure : ScanFunction :=
  mkScanFunction "echidna_sum" "echidna_sum(uint256)" false true "public"
                 ("echidna_sum", ["uint256"], ["bool"]).
Definition helper : ScanFunction :=
  mkScanFunction "helper" "helper()" true false "public" ("helper", [], []).

Definition constructor_of (parameters : list string) : ScanFunction :=
  mkScanFunction "constructor" "constructor()" false false "public"
                 ("constructor", parameters, []).

Definition base : ScanContract := mkScanContract 1 "Base" None [helper] [].
Definition fuzz : ScanContract :=
  mkScanContract 2 "FuzzPortal" (Some (constructor_of []))
                 [helper; echidna_balance; echidna_internal; echidna_writes;
                  echidna_pure]
                 [base].
Definition needs_arguments : ScanContract :=
  mkScanContract 3 "FuzzToken" (Some (constructor_of ["uint256"]))
                 [echidna_balance] [].

Definition analyzer : Analyzer :=
  mkAnalyzer [base; fuzz; needs_arguments] Scenario.pass_model.

Definition quiet_analyzer : Analyzer :=
  mkAnalyzer [base; needs_arguments] Scenario.extra_call_model.

End ScanScenario.

(** * Lemmas *)

(** ** Python's sequences *)

Lemma len_cons_pos {A : Type} (x : A) (l : list A) : (len (x :: l) =? 0) = false.
Proof. unfold len. apply Z.eqb_neq. simpl length. lia. Qed.

Lemma len_eqb_nat {A : Type} (l : list A) (k : nat) :
  (len l =? Z.of_nat k) = Nat.eqb (length l) k.
Proof.
  unfold len. destruct (Nat.eqb_spec (length l) k) as [->|H].
  - apply Z.eqb_refl.
  - apply Z.eqb_neq. lia.
Qed.

Lemma len_two {A : Type} (l : list A) :
  (len l =? 2) = match l with [_; _] => true | _ => false end.
Proof.
  change 2 with (Z.of_nat 2). rewrite len_eqb_nat.
  now destruct l as [|a [|b [|c l]]].
Qed.

Lemma len_three {A : Type} (l : list A) :
  (len l =? 3) = match l with [_; _; _] => true | _ => false end.
Proof.
  change 3 with (Z.of_nat 3). rewrite len_eqb_nat.
  now destruct l as [|a [|b [|c [|d l]]]].
Qed.

Lemma len_lt_one {A : Type} (l : list A) :
  (len l <? 1) = match l with [] => true | _ => false end.
Proof.
  unfold len. destruct l; simpl length; [reflexivity|].
  apply Z.ltb_ge. lia.
Qed.

Lemma getitem_head {A : Type} (x : A) (l : list A) : getitem (x :: l) 0 = Ret x.
Proof.
  unfold getitem. cbn [Z.ltb Z.compare orb].
  replace (len (x :: l) <=? 0) with false; [reflexivity|].
  symmetry. apply Z.leb_gt. unfold len. simpl length. lia.
Qed.

(** A subscript does raise when nothing guards it. *)
Example getitem_unguarded :
  getitem (@nil Operation) 0 = Raise IndexError /\
  getitem [OtherOperation 0] 1 = Raise IndexError /\
  getitem [OtherOperation 0] (-2) = Raise IndexError /\
  getitem [OtherOperation 0; OtherOperation 1] (-1) = Ret (OtherOperation 1).
Proof. repeat split. Qed.

(** ** [sorted] *)

Lemma leb_iff (s t : string) :
  String.leb s t = true <-> s = t \/ String_as_OT.lt s t.
Proof.
  unfold String.leb. destruct (String.compare s t) eqn:E.
  - apply String_as_OT.cmp_eq in E. tauto.
  - apply String_as_OT.cmp_lt in E. tauto.
  - split; [discriminate|]. intros [->|H].
    + assert (String.compare t t = Eq) by now apply String_as_OT.cmp_eq.
      congruence.
    + apply String_as_OT.cmp_lt in H. unfold String_as_OT.cmp in H.
      congruence.
Qed.

Lemma leb_trans (s t u : string) :
  String.leb s t = true -> String.leb t u = true -> String.leb s u = true.
Proof.
  rewrite !leb_iff. intros [->|H1] [->|H2]; auto.
  right. eapply String_as_OT.lt_trans; eauto.
Qed.

Lemma leb_false_flip (s t : string) :
  String.leb s t = false -> String.leb t s = true.
Proof. destruct (String.leb_total s t); congruence. Qed.

Lemma insert_comm (x y : string) (l : list string) :
  insert x (insert y l) = insert y (insert x l).
Proof.
  induction l as [|t l IH]; simpl.
  - destruct (String.leb x y) eqn:Exy, (String.leb y x) eqn:Eyx;
      try reflexivity.
    + now rewrite (String.leb_antisym _ _ Exy Eyx).
    + apply leb_false_flip in Exy. congruence.
  - destruct (String.leb y t) eqn:Eyt, (String.leb x t) eqn:Ext; simpl;
      rewrite ?Eyt, ?Ext.
    + destruct (String.leb x y) eqn:Exy, (String.leb y x) eqn:Eyx;
        try reflexivity.
      * now rewrite (String.leb_antisym _ _ Exy Eyx).
      * apply leb_false_flip in Exy. congruence.
    + destruct (String.leb x y) eqn:Exy; [|reflexivity].
      rewrite (leb_trans _ _ _ Exy Eyt) in Ext. discriminate.
    + destruct (String.leb y x) eqn:Eyx; [|reflexivity].
      rewrite (leb_trans _ _ _ Eyx Ext) in Eyt. discriminate.
    + now rewrite IH.
Qed.

Lemma insert_perm (x : string) (l : list string) :
  Permutation (insert x l) (x :: l).
Proof.
  induction l as [|t l IH]; simpl; [reflexivity|].
  destruct (String.leb x t); [reflexivity|].
  rewrite IH. apply perm_swap.
Qed.

Lemma sorted_perm (l : list string) : Permutation (sorted l) l.
Proof.
  induction l as [|x l IH]; simpl; [reflexivity|].
  rewrite insert_perm. now constructor.
Qed.

Lemma sorted_of_perm (a b : list string) :
  Permutation a b -> sorted a = sorted b.
Proof. induction 1; simpl; try congruence. apply insert_comm. Qed.

Lemma sorted_eq_iff (a b : list string) :
  sorted a = sorted b <-> Permutation a b.
Proof.
  split; [|apply sorted_of_perm].
  intros E. rewrite <- (sorted_perm a), E. apply sorted_perm.
Qed.

Lemma insert_sorted (x : string) (l : list string) :
  StronglySorted le l -> StronglySorted le (insert x l).
Proof.
  induction 1 as [|t l Hl IH Ht]; simpl.
  - repeat constructor.
  - destruct (String.leb x t) eqn:E.
    + constructor; [now constructor|]. constructor; [exact E|].
      eapply Forall_impl; [|exact Ht].
      intros u Hu. exact (leb_trans _ _ _ E Hu).
    + constructor; [exact IH|].
      apply (Permutation_Forall (x := x :: l));
        [symmetry; apply insert_perm|].
      constructor; [now apply leb_false_flip|exact Ht].
Qed.

(** [sorted l] is [l] in ascending order: the model of [sorted] is right. *)
Lemma sorted_ascending (l : list string) :
  StronglySorted le (sorted l) /\ Permutation (sorted l) l.
Proof.
  split; [|apply sorted_perm].
  induction l; simpl; [constructor|now apply insert_sorted].
Qed.

Lemma calls_differ_false (actual expected : list string) :
  calls_differ actual expected = false <-> Permutation actual expected.
Proof.
  unfold calls_differ, list_ne. rewrite <- sorted_eq_iff.
  destruct (list_eq_dec string_dec (sorted actual) (sorted expected));
    split; congruence.
Qed.

Lemma calls_differ_true (actual expected : list string) :
  calls_differ actual expected = true <-> ~ Permutation actual expected.
Proof.
  rewrite <- calls_differ_false.
  destruct (calls_differ actual expected); split; congruence.
Qed.

(** ** The loop body *)

Ltac step :=
  match goal with
  | |- context [match ?x with _ => _ end] =>
      lazymatch x with
      | context [match _ with _ => _ end] => fail
      | _ => destruct x
      end
  end.

Ltac continue_ :=
  cbn -[len getitem]; rewrite ?orb_false_r, ?orb_true_r; reflexivity.

Ltac side :=
  solve [continue_ | cbn -[len getitem]; repeat step; continue_].

(** One iteration, read off the shape of the node: it raises [TypeError] on
    the nodes of [reads_None], sets the flag on the nodes of [accepts] and
    leaves it as it is on every other node. *)
Lemma loop_body_spec (node : Node) (found : bool) :
  loop_body node found =
  if reads_None node then Raise TypeError
  else Ret (found || accepts node).
Proof.
  destruct node as [ty irs sons].
  unfold loop_body, reads_None, accepts; cbn [node_type node_irs node_sons].
  destruct ty; [|side..].
  destruct irs as [[|op irs]|]; [side| |side].
  rewrite len_cons_pos, getitem_head. cbn -[len getitem].
  destruct op as [[cid [name| | |]]| | | |]; [|side..].
  cbn -[len getitem].
  destruct (name =? "_isCreation")%string eqn:Hname; cbn -[len getitem];
    [|side].
  rewrite len_two.
  destruct sons as [|e [|b [|c sons]]]; [side|side| |side].
  change (getitem [e; b] (-1)) with (Ret b). rewrite getitem_head.
  cbn -[len getitem].
  destruct b as [[] birs bsons]; cbn -[len getitem]; [side| |side..].
  destruct e as [[] eirs esons]; cbn -[len getitem]; [side|side| |side].
  destruct eirs as [eirs|]; cbn -[len getitem]; [|reflexivity].
  rewrite len_three.
  destruct eirs as [|o1 [|o2 [|o3 [|o4 eirs]]]]; [side|side|side| |side].
  rewrite getitem_head. change (getitem [o1; o2; o3] 1) with (Ret o2).
  change (getitem [o1; o2; o3] 2) with (Ret o3). cbn -[len getitem].
  destruct o1 as [|[zid [| value | |]] type_name tmp| | |];
    [side..| |side|side|side|side|side].
  cbn -[len getitem].
  destruct (ne_int value 0); [side|].
  destruct (type_name =? "address")%string; [|side].
  cbn -[len getitem].
  destruct o2 as [| |bt [lid lcl] rhs res| |]; [side|side| |side|side].
  destruct bt; try side.
  cbn -[len getitem].
  destruct (var_ne rhs tmp); [side|].
  cbn -[len getitem].
  destruct lcl as [local_name| | |]; [|side..].
  destruct (local_name =? "_to")%string; [|side].
  cbn -[len getitem].
  destruct o3 as [| | |full_name args|]; [side|side|side| |side].
  rewrite len_lt_one.
  destruct (full_name =? "require(bool,string)")%string; [|side].
  destruct args as [|a args]; [side|].
  rewrite getitem_head. cbn -[len getitem].
  destruct (var_ne a res); continue_.
Qed.

(** The whole loop: [TypeError] when some node is one of [reads_None], and
    otherwise the flag, set when some node is accepted. *)
Lemma for_nodes_spec (nodes : list Node) (found : bool) :
  for_nodes nodes found =
  if existsb reads_None nodes then Raise TypeError
  else Ret (found || existsb accepts nodes).
Proof.
  revert found. induction nodes as [|node rest IH]; intros found; simpl.
  - now rewrite orb_false_r.
  - rewrite loop_body_spec. destruct (reads_None node); simpl; [reflexivity|].
    rewrite IH. now rewrite orb_assoc.
Qed.

Lemma existsb_perm {A : Type} (p : A -> bool) (l l' : list A) :
  Permutation l l' -> existsb p l = existsb p l'.
Proof.
  induction 1; simpl; try congruence.
  - now rewrite !orb_assoc, (orb_comm (p y)).
Qed.

(** The script, sub-check by sub-check. *)
Lemma test_spec (slither : Slither) :
  test_deposit_transaction_integrity slither =
  match get_contract_from_name slither "OptimismPortal" with
  | None | Some [] => ([OUT_RUNNING], Raise (LookupError MSG_NO_CONTRACT))
  | Some (portal :: _) =>
      match find_deposit_function portal with
      | None => ([OUT_RUNNING], Raise (LookupError MSG_NO_FUNCTION))
      | Some f =>
          if calls_differ (high_level_calls f) EXPECTED_CALLS
          then ([OUT_RUNNING], Raise (ValueError MSG_NEW_CALL))
          else match find_creation_check f with
               | Raise e => ([OUT_RUNNING], Raise e)
               | Ret false => ([OUT_RUNNING], Raise (LookupError MSG_NO_CHECK))
               | Ret true => ([OUT_RUNNING; OUT_PASSED], Ret tt)
               end
      end
  end.
Proof.
  unfold test_deposit_transaction_integrity, high_level_calls.
  destruct (get_contract_from_name slither "OptimismPortal")
    as [[|portal others]|]; try reflexivity.
  rewrite len_lt_one, getitem_head. cbn -[calls_differ].
  destruct (find_deposit_function portal) as [f|]; [|reflexivity].
  destruct (calls_differ _ _); [reflexivity|].
  cbn. destruct (find_creation_check f) as [[|]|e]; reflexivity.
Qed.

Lemma guarded_require_accepts (node : Node) :
  guarded_require node -> accepts node = true /\ reads_None node = false.
Proof.
  intros [[gid gc] [zid zc] tmp [tid tc] rhs result argument0
          more_irs more_arguments esons bsons birs Hg Hz Ht Hr Ha].
  cbn in Hg, Hz, Ht. subst gc zc tc. unfold accepts, reads_None, var_ne.
  rewrite Hr, Ha, !Nat.eqb_refl. split; reflexivity.
Qed.

Lemma well_formed_reads_None (node : Node) :
  well_formed_node node = true -> reads_None node = false.
Proof.
  destruct node as [ty irs sons]. unfold well_formed_node, reads_None.
  cbn [node_sons]. intros H.
  destruct ty; try reflexivity.
  destruct irs as [[|[[cid []]| | | |] irs]|]; try reflexivity.
  destruct sons as [|[[] [eirs|] esons] [|[[] birs bsons] [|c sons]]];
    try reflexivity; discriminate H.
Qed.

Lemma well_formed_no_TypeError (f : Function) :
  well_formed f = true -> existsb reads_None (function_nodes f) = false.
Proof.
  unfold well_formed. induction (function_nodes f) as [|n l IH]; simpl;
    [reflexivity|].
  intros H. apply andb_true_iff in H as [Hn Hl].
  now rewrite (well_formed_reads_None _ Hn), IH.
Qed.

(** The nodes the loop body accepts, spelled out. *)
Lemma accepts_inv (node : Node) :
  accepts node = true ->
  exists cid more_irs zid value tmp lid rhs result argument0 more_arguments
         esons birs bsons,
    node =
      mkNode IF
        (Some (Condition (mkVar cid (LocalVariable "_isCreation")) :: more_irs))
        [mkNode EXPRESSION
           (Some [TypeConversion (mkVar zid (Constant value)) "address" tmp;
                  Binary EQUAL (mkVar lid (LocalVariable "_to")) rhs result;
                  SolidityCall "require(bool,string)"
                    (argument0 :: more_arguments)])
           esons;
         mkNode ENDIF birs bsons]
    /\ ne_int value 0 = false
    /\ var_id rhs = var_id tmp
    /\ var_id argument0 = var_id result.
Proof.
  unfold accepts. intros H.
  repeat match type of H with
         | context [match ?x with _ => _ end] =>
             lazymatch x with
             | context [match _ with _ => _ end] => fail
             | _ => destruct x; try discriminate H
             end
         end.
  repeat (apply andb_true_iff in H as [H ?]).
  repeat match goal with
         | E : (_ =? _)%string = true |- _ => apply String.eqb_eq in E; subst
         | E : negb _ = true |- _ => apply negb_true_iff in E
         end.
  unfold var_ne in *.
  repeat match goal with
         | E : negb _ = false |- _ =>
             apply negb_false_iff, Nat.eqb_eq in E
         end.
  repeat eexists; eauto.
Qed.

Lemma not_IF_skipped (node : Node) :
  node_type node <> IF -> reads_None node = false /\ accepts node = false.
Proof.
  destruct node as [[] irs sons]; cbn [node_type]; intros H;
    try (split; reflexivity).
  now contradiction H.
Qed.

(** With a list of IR operations on the first son, only a list of exactly
    three operations is looked at. *)
Lemma first_son_shape (node e : Node) (others : list Node)
      (ops : list Operation) :
  node_sons node = e :: others -> node_irs e = Some ops ->
  reads_None node = false /\
  (accepts node = true ->
   exists o1 o2 o3 b, ops = [o1; o2; o3] /\ others = [b]).
Proof.
  intros Hs He. split.
  - destruct node as [ty irs sons]. cbn in Hs. subst sons.
    destruct e as [ety eirs esons]. cbn in He. subst eirs.
    unfold reads_None. destruct ty; try reflexivity.
    destruct irs as [[|[[cid []]| | | |] irs]|]; try reflexivity.
    destruct ety; reflexivity.
  - intros Ha. apply accepts_inv in Ha.
    destruct Ha as (cid & more_irs & zid & value & tmp & lid & rhs & result
                    & a0 & more & esons & birs & bsons & -> & _).
    cbn in Hs. injection Hs as <- <-. cbn in He. injection He as <-.
    repeat eexists.
Qed.

(** * The properties of the script *)

(** C1. End-to-end pass: when the function the script verifies has exactly
    the one outgoing call [AddressAliasHelper.applyL1ToL2Alias] and its
    nodes contain the guarded [require] of the pass scenario (an [IF] node
    on [_isCreation] with sons [EXPRESSION; ENDIF], the first carrying the
    conversion of 0 to [address], the comparison of [_to] with that very
    temporary and the [require] on the very result of the comparison), the
    script prints "Test passed" and raises nothing. The model is
    well-formed: every son has its list of IR operations. *)
Theorem pass_scenario (slither : Slither) (f : Function) (node : Node) :
  deposit_function_of slither f ->
  function_high_level_calls f = [("AddressAliasHelper", "applyL1ToL2Alias")] ->
  well_formed f = true ->
  In node (function_nodes f) ->
  guarded_require node ->
  test_deposit_transaction_integrity slither
  = ([OUT_RUNNING; OUT_PASSED], Ret tt).
Proof.
  intros (portal & others & Hc & Hf) Hcalls Hwf Hin Hnode.
  rewrite test_spec, Hc, Hf. unfold high_level_calls. rewrite Hcalls.
  change (calls_differ _ _) with false. cbv iota.
  unfold find_creation_check. rewrite for_nodes_spec.
  rewrite (well_formed_no_TypeError _ Hwf).
  assert (E : existsb accepts (function_nodes f) = true).
  { apply existsb_exists. exists node. split; [exact Hin|].
    now apply guarded_require_accepts. }
  rewrite E. reflexivity.
Qed.

Lemma pass_scenario_witness :
  test_deposit_transaction_integrity Scenario.pass_model
  = ([OUT_RUNNING; OUT_PASSED], Ret tt).
Proof.
  apply (pass_scenario Scenario.pass_model
           (Scenario.deposit
              [Scenario.entry; Scenario.if_node Scenario.require_irs;
               Scenario.end_if] [Scenario.alias_call])
           (Scenario.if_node Scenario.require_irs)).
  - eexists; eexists; split; reflexivity.
  - reflexivity.
  - reflexivity.
  - simpl; auto.
  - constructor; reflexivity.
Defined.

(** C2. The call-set check compares the two lists as multisets: it passes
    exactly when the actual calls are a permutation of the expected ones, so
    a list of another length (a call missing, one more call, one more copy
    of an expected call) fails; and on the function the script verifies it
    raises the call-set [ValueError] exactly when the calls are not a
    permutation of the expected list. *)
Theorem call_set_multiset :
  (forall actual expected : list string,
      calls_differ actual expected = false <-> Permutation actual expected)
  /\ (forall actual expected : list string,
         length actual <> length expected ->
         calls_differ actual expected = true)
  /\ (forall (slither : Slither) (f : Function),
         deposit_function_of slither f ->
         (test_deposit_transaction_integrity slither
          = ([OUT_RUNNING], Raise (ValueError MSG_NEW_CALL))
          <-> ~ Permutation (high_level_calls f) EXPECTED_CALLS)).
Proof.
  split; [exact calls_differ_false|]. split.
  - intros actual expected Hlen. apply calls_differ_true.
    intros Hp. apply Hlen. now apply Permutation_length.
  - intros slither f (portal & others & Hc & Hf).
    rewrite test_spec, Hc, Hf, <- calls_differ_true.
    destruct (calls_differ (high_level_calls f) EXPECTED_CALLS).
    + split; reflexivity.
    + split; [|discriminate].
      destruct (find_creation_check f) as [[|]|e] eqn:E; try discriminate.
      unfold find_creation_check in E. rewrite for_nodes_spec in E.
      destruct (existsb reads_None (function_nodes f)); [|discriminate E].
      injection E as <-. discriminate.
Qed.

Lemma call_set_multiset_witness :
  calls_differ ["A.f"; "B.g"] ["B.g"; "A.f"] = false
  /\ calls_differ ["A.f"] ["A.f"; "B.g"] = true
  /\ calls_differ ["A.f"; "A.f"; "B.g"] ["A.f"; "B.g"] = true
  /\ test_deposit_transaction_integrity Scenario.extra_call_model
     = ([OUT_RUNNING], Raise (ValueError MSG_NEW_CALL)).
Proof.
  destruct call_set_multiset as (Hperm & Hlen & Hraise).
  split; [apply Hperm; apply perm_swap|].
  split; [apply Hlen; simpl; lia|].
  split; [apply Hlen; simpl; lia|].
  apply (Hraise Scenario.extra_call_model
           (Scenario.deposit
              [Scenario.entry; Scenario.if_node Scenario.require_irs;
               Scenario.end_if]
              [Scenario.alias_call; Scenario.other_call])).
  - eexists; eexists; split; reflexivity.
  - intros Hp. apply Permutation_length in Hp. discriminate Hp.
Defined.

(** C3. Strict length: a node whose first son carries a list of IR
    operations of any length other than 3 is rejected (the iteration leaves
    the flag as it is), whatever the operations are, and so also when the
    three expected operations appear in it in order. *)
Theorem strict_length (node e : Node) (others : list Node)
        (ops : list Operation) (found : bool) :
  node_sons node = e :: others ->
  node_irs e = Some ops ->
  length ops <> 3%nat ->
  loop_body node found = Ret found.
Proof.
  intros Hs He Hlen. rewrite loop_body_spec.
  destruct (first_son_shape node e others ops Hs He) as [-> Hacc].
  destruct (accepts node) eqn:Ha; [|now rewrite orb_false_r].
  destruct (Hacc eq_refl) as (o1 & o2 & o3 & b & -> & _).
  now contradiction Hlen.
Qed.

Lemma strict_length_witness :
  loop_body (Scenario.if_node Scenario.require_irs) false = Ret true
  /\ loop_body
       (Scenario.if_node
          [Scenario.convert; OtherOperation 0;
           Scenario.compare EQUAL Scenario.to_ Scenario.tmp_address;
           Scenario.require Scenario.tmp_equal]) false = Ret false.
Proof.
  split; [reflexivity|].
  eapply strict_length.
  - reflexivity.
  - reflexivity.
  - simpl. lia.
Defined.

(** C4. Identity, not value: on a first son carrying a conversion, a
    comparison and a call, the node is rejected as soon as the right operand
    of the comparison is another object than the result of the conversion,
    or the first argument of the call another object than the result of the
    comparison -- whatever the class and the attributes of that object, and
    so also when it is a temporary that looks the same. *)
Theorem identity_cross_reference (node e : Node) (others : list Node)
        (zero tmp l rhs result : Var) (type_name full_name : string)
        (type : BinaryType) (arguments : list Var) (found : bool) :
  node_sons node = e :: others ->
  node_irs e = Some [TypeConversion zero type_name tmp;
                     Binary type l rhs result;
                     SolidityCall full_name arguments] ->
  var_id rhs <> var_id tmp
  \/ (exists argument0 more, arguments = argument0 :: more
                             /\ var_id argument0 <> var_id result) ->
  loop_body node found = Ret found.
Proof.
  intros Hs He Hid. rewrite loop_body_spec.
  destruct (first_son_shape node e others _ Hs He) as [-> _].
  destruct (accepts node) eqn:Ha; [|now rewrite orb_false_r].
  exfalso. apply accepts_inv in Ha.
  destruct Ha as (cid & more_irs & zid & value & tmp' & lid & rhs' & result'
                  & a0 & more' & esons & birs & bsons & -> & _ & Hr & Harg).
  cbn in Hs. injection Hs as <- _. cbn in He.
  injection He as _ _ <- _ _ <- <- _ <-.
  destruct Hid as [Hid|(a & more & Heq & Hid)]; [now apply Hid|].
  injection Heq as <- _. now apply Hid.
Qed.

Lemma identity_cross_reference_witness :
  var_class Scenario.tmp_other = var_class Scenario.tmp_address
  /\ loop_body
       (Scenario.if_node
          [Scenario.convert;
           Scenario.compare EQUAL Scenario.to_ Scenario.tmp_other;
           Scenario.require Scenario.tmp_equal]) false = Ret false.
Proof.
  split; [reflexivity|].
  eapply identity_cross_reference.
  - reflexivity.
  - reflexivity.
  - left. simpl. lia.
Defined.

(** The loop raises nothing but [TypeError]. *)
Lemma find_creation_check_cases (f : Function) :
  find_creation_check f = Raise TypeError
  \/ exists found, find_creation_check f = Ret found.
Proof.
  unfold find_creation_check. rewrite for_nodes_spec.
  destruct (existsb reads_None (function_nodes f)); eauto.
Qed.

(** C5. The sub-checks run in a fixed order and the first that fails decides
    the outcome: a missing contract, then a missing function, then the call
    set, then the structure. A call-set mismatch raises its [ValueError]
    whatever the nodes of the function are: the loop over the nodes is not
    run. *)
Theorem check_order :
  (forall slither : Slither,
      contract_missing slither ->
      test_deposit_transaction_integrity slither
      = ([OUT_RUNNING], Raise (LookupError MSG_NO_CONTRACT)))
  /\ (forall slither : Slither,
         function_missing slither ->
         test_deposit_transaction_integrity slither
         = ([OUT_RUNNING], Raise (LookupError MSG_NO_FUNCTION)))
  /\ (forall (slither : Slither) (f : Function),
         deposit_function_of slither f ->
         calls_differ (high_level_calls f) EXPECTED_CALLS = true ->
         test_deposit_transaction_integrity slither
         = ([OUT_RUNNING], Raise (ValueError MSG_NEW_CALL)))
  /\ (forall (slither : Slither) (f : Function),
         deposit_function_of slither f ->
         calls_differ (high_level_calls f) EXPECTED_CALLS = false ->
         find_creation_check f = Ret false ->
         test_deposit_transaction_integrity slither
         = ([OUT_RUNNING], Raise (LookupError MSG_NO_CHECK)))
  /\ (forall (slither : Slither) (f : Function),
         deposit_function_of slither f ->
         calls_differ (high_level_calls f) EXPECTED_CALLS = false ->
         find_creation_check f = Ret true ->
         test_deposit_transaction_integrity slither
         = ([OUT_RUNNING; OUT_PASSED], Ret tt)).
Proof.
  repeat split.
  - intros slither [H|H]; now rewrite test_spec, H.
  - intros slither (portal & others & Hc & Hf). now rewrite test_spec, Hc, Hf.
  - intros slither f (portal & others & Hc & Hf) Hd.
    now rewrite test_spec, Hc, Hf, Hd.
  - intros slither f (portal & others & Hc & Hf) Hd Hn.
    now rewrite test_spec, Hc, Hf, Hd, Hn.
  - intros slither f (portal & others & Hc & Hf) Hd Hn.
    now rewrite test_spec, Hc, Hf, Hd, Hn.
Qed.

(** On a function whose nodes would make the loop raise, one more outgoing
    call still gives the call-set error. *)
Lemma check_order_witness :
  find_creation_check
    (Scenario.deposit [Scenario.bare_if]
                      [Scenario.alias_call; Scenario.other_call])
  = Raise TypeError
  /\ test_deposit_transaction_integrity
       (Scenario.model
          (Scenario.deposit [Scenario.bare_if]
                            [Scenario.alias_call; Scenario.other_call]))
     = ([OUT_RUNNING], Raise (ValueError MSG_NEW_CALL)).
Proof.
  split; [reflexivity|].
  destruct check_order as (_ & _ & Hcalls & _).
  apply (Hcalls _ (Scenario.deposit [Scenario.bare_if]
                     [Scenario.alias_call; Scenario.other_call])).
  - eexists; eexists; split; reflexivity.
  - reflexivity.
Defined.

(** C6, as the script has it. The comparison has its sides fixed: a node
    that the loop body accepts has the result of the conversion as the RIGHT
    operand of the comparison and the local [_to] as its LEFT operand, and
    the same node with the two operands exchanged is rejected (unless the
    right operand is itself a local named [_to]). *)
Theorem binary_sides_fixed (node : Node) (found : bool) :
  loop_body node false = Ret true ->
  exists (e b : Node) (zero tmp l rhs result : Var) (type_name : string)
         (call : Operation),
    node_sons node = [e; b]
    /\ node_irs e = Some [TypeConversion zero type_name tmp;
                          Binary EQUAL l rhs result; call]
    /\ var_id rhs = var_id tmp
    /\ var_class l = LocalVariable "_to"
    /\ (var_class rhs <> LocalVariable "_to" ->
        loop_body (swap_operands node) found = Ret found).
Proof.
  rewrite loop_body_spec.
  destruct (reads_None node); [discriminate|].
  intros H. injection H as H. cbn in H. apply accepts_inv in H.
  destruct H as (cid & more_irs & zid & value & tmp & lid & rhs & result
                 & a0 & more & esons & birs & bsons & -> & _ & Hr & _).
  do 9 eexists. split; [reflexivity|]. split; [reflexivity|].
  split; [exact Hr|]. split; [reflexivity|].
  intros Hrhs. rewrite loop_body_spec.
  destruct rhs as [rid [name| | |]]; try (cbn; now rewrite orb_false_r).
  cbn -[String.eqb].
  destruct (String.eqb_spec name "_to") as [->|Hne]; [now contradiction Hrhs|].
  cbn. rewrite !andb_false_r. cbn. now rewrite orb_false_r.
Qed.

Lemma binary_sides_fixed_witness :
  exists (e b : Node) (zero tmp l rhs result : Var) (type_name : string)
         (call : Operation),
    node_sons (Scenario.if_node Scenario.require_irs) = [e; b]
    /\ node_irs e = Some [TypeConversion zero type_name tmp;
                          Binary EQUAL l rhs result; call]
    /\ var_id rhs = var_id tmp
    /\ var_class l = LocalVariable "_to"
    /\ (var_class rhs <> LocalVariable "_to" ->
        loop_body (swap_operands (Scenario.if_node Scenario.require_irs))
                  false = Ret false).
Proof.
  apply (binary_sides_fixed (Scenario.if_node Scenario.require_irs) false).
  reflexivity.
Defined.

(** C6, as it is stated, fails: the node of the pass scenario is accepted,
    and with the operands of its comparison exchanged ([address(0) == _to])
    it is rejected, although one operand is still the result of the
    conversion and the other the local [_to]. *)
Lemma swapped_operands_counterexample :
  swap_operands (Scenario.if_node Scenario.require_irs)
  = Scenario.if_node Scenario.swapped_irs
  /\ loop_body (Scenario.if_node Scenario.require_irs) false = Ret true
  /\ loop_body (swap_operands (Scenario.if_node Scenario.require_irs)) false
     = Ret false.
Proof. repeat split. Qed.

(** C7. The outcome does not depend on the order in which the nodes are
    enumerated: two models whose verified functions have the same outgoing
    calls and the same nodes in another order give the same output and the
    same result (the script is a function of the model, so a fixed model
    gives one outcome). *)
Theorem node_order_irrelevant (slither slither' : Slither) (f f' : Function) :
  deposit_function_of slither f ->
  deposit_function_of slither' f' ->
  function_high_level_calls f' = function_high_level_calls f ->
  Permutation (function_nodes f) (function_nodes f') ->
  test_deposit_transaction_integrity slither'
  = test_deposit_transaction_integrity slither.
Proof.
  intros (portal & others & Hc & Hf) (portal' & others' & Hc' & Hf')
         Hcalls Hperm.
  rewrite !test_spec, Hc, Hf, Hc', Hf'.
  unfold high_level_calls, find_creation_check.
  rewrite Hcalls, !for_nodes_spec.
  now rewrite (existsb_perm reads_None _ _ Hperm),
              (existsb_perm accepts _ _ Hperm).
Qed.

Lemma node_order_irrelevant_witness :
  test_deposit_transaction_integrity
    (Scenario.model
       (Scenario.deposit
          [Scenario.if_node Scenario.require_irs; Scenario.end_if;
           Scenario.entry] [Scenario.alias_call]))
  = test_deposit_transaction_integrity Scenario.pass_model.
Proof.
  apply (node_order_irrelevant _ _
           (Scenario.deposit
              [Scenario.entry; Scenario.if_node Scenario.require_irs;
               Scenario.end_if] [Scenario.alias_call])
           (Scenario.deposit
              [Scenario.if_node Scenario.require_irs; Scenario.end_if;
               Scenario.entry] [Scenario.alias_call])).
  - eexists; eexists; split; reflexivity.
  - eexists; eexists; split; reflexivity.
  - reflexivity.
  - simpl. apply Permutation_cons_append.
Defined.

(** C8. On a function without any [IF] node the loop ends without raising
    and with the flag [False]: no candidate is a plain negative answer of
    the matching pass. *)
Theorem no_conditional_no_match (f : Function) :
  (forall node, In node (function_nodes f) -> node_type node <> IF) ->
  find_creation_check f = Ret false.
Proof.
  unfold find_creation_check. rewrite for_nodes_spec.
  induction (function_nodes f) as [|node rest IH]; intros H; [reflexivity|].
  destruct (not_IF_skipped node (H node (or_introl eq_refl))) as [Hr Ha].
  simpl. rewrite Hr, Ha. apply IH.
  intros n Hn. apply H. now right.
Qed.

Lemma no_conditional_no_match_witness :
  find_creation_check Scenario.straight_line = Ret false.
Proof.
  apply no_conditional_no_match.
  intros node [<-|[<-|[<-|[]]]]; discriminate.
Defined.

(** C9, as the script has it. Every failure the script raises itself carries
    one of four fixed messages, one for each sub-check and no two the same,
    so the message names the sub-check that failed; the message of a
    call-set mismatch is the same fixed text for every mismatch. The only
    other failure is the [TypeError] of a node without IR list. *)
Theorem failure_names_sub_check (slither : Slither) (e : Exception) :
  snd (test_deposit_transaction_integrity slither) = Raise e ->
  NoDup [MSG_NO_CONTRACT; MSG_NO_FUNCTION; MSG_NEW_CALL; MSG_NO_CHECK]
  /\ ((e = LookupError MSG_NO_CONTRACT /\ contract_missing slither)
      \/ (e = LookupError MSG_NO_FUNCTION /\ function_missing slither)
      \/ (exists f, deposit_function_of slither f
            /\ ((e = ValueError MSG_NEW_CALL
                 /\ ~ Permutation (high_level_calls f) EXPECTED_CALLS)
                \/ (e = LookupError MSG_NO_CHECK
                    /\ Permutation (high_level_calls f) EXPECTED_CALLS
                    /\ find_creation_check f = Ret false)
                \/ (e = TypeError
                    /\ Permutation (high_level_calls f) EXPECTED_CALLS
                    /\ find_creation_check f = Raise TypeError)))).
Proof.
  intros H. split.
  - repeat constructor; simpl; intros K;
      repeat (destruct K as [K|K]; [discriminate K|]); exact K.
  - rewrite test_spec in H.
    destruct (get_contract_from_name slither "OptimismPortal")
      as [[|portal others]|] eqn:Hc.
    + injection H as <-. left. split; [reflexivity|now right].
    + destruct (find_deposit_function portal) as [f|] eqn:Hf.
      * right. right. exists f. split; [now exists portal, others|].
        destruct (calls_differ (high_level_calls f) EXPECTED_CALLS) eqn:Hd.
        -- injection H as <-. left. split; [reflexivity|].
           now apply calls_differ_true.
        -- apply calls_differ_false in Hd. right.
           destruct (find_creation_check_cases f) as [E|[[|] E]];
             rewrite E in H; cbn in H.
           ++ injection H as <-. right. auto.
           ++ discriminate H.
           ++ injection H as <-. left. auto.
      * injection H as <-. right. left. split; [reflexivity|].
        now exists portal, others.
    + injection H as <-. left. split; [reflexivity|now left].
Qed.

Lemma failure_names_sub_check_witness :
  NoDup [MSG_NO_CONTRACT; MSG_NO_FUNCTION; MSG_NEW_CALL; MSG_NO_CHECK]
  /\ ((ValueError MSG_NEW_CALL = LookupError MSG_NO_CONTRACT
       /\ contract_missing Scenario.missing_call_model)
      \/ (ValueError MSG_NEW_CALL = LookupError MSG_NO_FUNCTION
          /\ function_missing Scenario.missing_call_model)
      \/ (exists f, deposit_function_of Scenario.missing_call_model f
            /\ ((ValueError MSG_NEW_CALL = ValueError MSG_NEW_CALL
                 /\ ~ Permutation (high_level_calls f) EXPECTED_CALLS)
                \/ (ValueError MSG_NEW_CALL = LookupError MSG_NO_CHECK
                    /\ Permutation (high_level_calls f) EXPECTED_CALLS
                    /\ find_creation_check f = Ret false)
                \/ (ValueError MSG_NEW_CALL = TypeError
                    /\ Permutation (high_level_calls f) EXPECTED_CALLS
                    /\ find_creation_check f = Raise TypeError)))).
Proof.
  apply (failure_names_sub_check Scenario.missing_call_model
           (ValueError MSG_NEW_CALL)).
  reflexivity.
Defined.

(** C9, as it is stated, fails: with the extra call [Other.helper] the
    message of the call-set error contains neither the extra call nor the
    expected one, and it is the same message when the expected call is
    missing. *)
Lemma call_set_message_counterexample :
  exists msg,
    test_deposit_transaction_integrity Scenario.extra_call_model
    = ([OUT_RUNNING], Raise (ValueError msg))
    /\ test_deposit_transaction_integrity Scenario.missing_call_model
       = ([OUT_RUNNING], Raise (ValueError msg))
    /\ mentions "Other.helper" msg = false
    /\ mentions "AddressAliasHelper.applyL1ToL2Alias" msg = false.
Proof. exists MSG_NEW_CALL. repeat split. Qed.

(** C10. No subscript of the pass is out of range: neither an iteration of
    the loop nor the script ever raises [IndexError], on any model; and on a
    well-formed function the loop is total, it returns the flag. *)
Theorem subscripts_guarded :
  (forall (node : Node) (found : bool),
      loop_body node found <> Raise IndexError)
  /\ (forall slither : Slither,
         snd (test_deposit_transaction_integrity slither) <> Raise IndexError)
  /\ (forall f : Function,
         well_formed f = true ->
         exists found, find_creation_check f = Ret found).
Proof.
  repeat split.
  - intros node found. rewrite loop_body_spec.
    destruct (reads_None node); discriminate.
  - intros slither. rewrite test_spec.
    destruct (get_contract_from_name slither "OptimismPortal")
      as [[|portal others]|]; try discriminate.
    destruct (find_deposit_function portal) as [f|]; [|discriminate].
    destruct (calls_differ _ _); [discriminate|].
    destruct (find_creation_check_cases f) as [E|[[|] E]]; rewrite E;
      discriminate.
  - intros f Hwf. unfold find_creation_check. rewrite for_nodes_spec.
    rewrite (well_formed_no_TypeError f Hwf). eauto.
Qed.

Lemma subscripts_guarded_witness :
  exists found,
    find_creation_check
      (Scenario.deposit
         [Scenario.entry; Scenario.if_node Scenario.require_irs;
          Scenario.end_if] [Scenario.alias_call]) = Ret found.
Proof.
  destruct subscripts_guarded as (_ & _ & Htotal).
  apply Htotal. reflexivity.
Defined.

(** * More of the script *)

(** ** The shapes of an iteration *)

Lemma accepts_checked (node : Node) :
  accepts node = true <-> checked_require node.
Proof.
  split.
  - intros H. apply accepts_inv in H.
    destruct H as (cid & more_irs & zid & value & tmp & lid & rhs & result
                   & a0 & more & esons & birs & bsons & -> & Hv & Hr & Ha).
    now apply checked_require_intro with (value := value).
  - intros [[gid gc] [zid zc] tmp [tid tc] rhs result argument0 value
            more_irs more_arguments esons bsons birs Hg Hz Hv Ht Hr Ha].
    cbn in Hg, Hz, Ht. subst gc zc tc. unfold accepts, var_ne.
    rewrite Hv, Hr, Ha, !Nat.eqb_refl. reflexivity.
Qed.

Lemma reads_None_missing (node : Node) :
  reads_None node = true <-> missing_irs node.
Proof.
  split.
  - unfold reads_None. intros H.
    repeat match type of H with
           | context [match ?x with _ => _ end] =>
               lazymatch x with
               | context [match _ with _ => _ end] => fail
               | _ => destruct x; try discriminate H
               end
           end.
    apply String.eqb_eq in H. subst. now constructor.
  - intros [[gid gc] more_irs esons bsons birs Hg]. cbn in Hg. subst gc.
    reflexivity.
Qed.

Lemma accepts_not_reads_None (node : Node) :
  accepts node = true -> reads_None node = false.
Proof.
  intros H. apply accepts_checked in H. destruct H.
  destruct (reads_None _) eqn:E; [|reflexivity].
  apply reads_None_missing in E. inversion E.
Qed.

(** X1. An iteration sets the flag exactly on the nodes of
    [checked_require]: an [IF] node whose first IR operation is a
    [Condition] on a local [_isCreation], with exactly the two sons
    [EXPRESSION] and [ENDIF], the first carrying exactly a conversion of a
    literal equal to 0 to [address], the comparison [_to == ] that
    temporary, and [require(bool,string)] called on the result of the
    comparison. *)
Theorem accepted_iff (node : Node) :
  loop_body node false = Ret true <-> checked_require node.
Proof.
  rewrite loop_body_spec, <- accepts_checked. split.
  - destruct (reads_None node); [discriminate|]. now intros [= ->].
  - intros H. now rewrite (accepts_not_reads_None _ H), H.
Qed.

Lemma accepted_iff_witness :
  checked_require (Scenario.if_node Scenario.require_irs).
Proof.
  apply (proj1 (accepted_iff (Scenario.if_node Scenario.require_irs))).
  reflexivity.
Defined.

(** X2. What a pass guarantees, on any model: when the script returns
    without raising, the first contract found has a function
    [depositTransaction] whose outgoing calls are exactly the one expected
    call, and one of its nodes is a [checked_require]; and both lines were
    printed. *)
Theorem pass_sound (slither : Slither) (out : list string) :
  test_deposit_transaction_integrity slither = (out, Ret tt) ->
  out = [OUT_RUNNING; OUT_PASSED]
  /\ exists f node,
      deposit_function_of slither f
      /\ high_level_calls f = EXPECTED_CALLS
      /\ In node (function_nodes f)
      /\ checked_require node.
Proof.
  rewrite test_spec.
  destruct (get_contract_from_name slither "OptimismPortal")
    as [[|portal others]|] eqn:Hc; try discriminate.
  destruct (find_deposit_function portal) as [f|] eqn:Hf; [|discriminate].
  destruct (calls_differ (high_level_calls f) EXPECTED_CALLS) eqn:Hd;
    [discriminate|].
  destruct (find_creation_check f) as [[|]|e] eqn:E; try discriminate.
  intros [= <-]. split; [reflexivity|].
  unfold find_creation_check in E. rewrite for_nodes_spec in E.
  destruct (existsb reads_None (function_nodes f)); [discriminate|].
  injection E as E. cbn in E. apply existsb_exists in E as (node & Hin & Ha).
  exists f, node. split; [now exists portal, others|].
  split; [|split; [exact Hin|now apply accepts_checked]].
  apply calls_differ_false in Hd. symmetry in Hd.
  now apply Permutation_length_1_inv in Hd.
Qed.

Lemma pass_sound_witness :
  [OUT_RUNNING; OUT_PASSED] = [OUT_RUNNING; OUT_PASSED]
  /\ exists f node,
      deposit_function_of Scenario.pass_model f
      /\ high_level_calls f = EXPECTED_CALLS
      /\ In node (function_nodes f)
      /\ checked_require node.
Proof.
  apply (pass_sound Scenario.pass_model). reflexivity.
Defined.

(** X3. The structural failure: on a well-formed function with exactly the
    expected call and no [checked_require] among its nodes, the script
    raises the [LookupError] of line 175 after the first line of output. *)
Theorem structural_failure (slither : Slither) (f : Function) :
  deposit_function_of slither f ->
  high_level_calls f = EXPECTED_CALLS ->
  well_formed f = true ->
  (forall node, In node (function_nodes f) -> ~ checked_require node) ->
  test_deposit_transaction_integrity slither
  = ([OUT_RUNNING], Raise (LookupError MSG_NO_CHECK)).
Proof.
  intros (portal & others & Hc & Hf) Hcalls Hwf Hnone.
  rewrite test_spec, Hc, Hf, Hcalls.
  change (calls_differ _ _) with false. cbv iota.
  unfold find_creation_check. rewrite for_nodes_spec.
  rewrite (well_formed_no_TypeError _ Hwf).
  destruct (existsb accepts (function_nodes f)) eqn:E; [|reflexivity].
  apply existsb_exists in E as (node & Hin & Ha).
  apply accepts_checked in Ha. now destruct (Hnone node Hin).
Qed.

(** The failure scenario of the comparison written with [!=]. *)
Lemma structural_failure_witness :
  test_deposit_transaction_integrity
    (Scenario.model
       (Scenario.deposit
          [Scenario.entry;
           Scenario.if_node
             [Scenario.convert;
              Scenario.compare NOT_EQUAL Scenario.to_ Scenario.tmp_address;
              Scenario.require Scenario.tmp_equal];
           Scenario.end_if] [Scenario.alias_call]))
  = ([OUT_RUNNING], Raise (LookupError MSG_NO_CHECK)).
Proof.
  eapply structural_failure.
  - eexists; eexists; split; reflexivity.
  - reflexivity.
  - reflexivity.
  - intros node [<-|[<-|[<-|[]]]] H; inversion H.
Defined.

(** X4. The loop raises [TypeError] exactly when some node of the function
    is an [IF] node on [_isCreation] with sons [EXPRESSION; ENDIF] whose
    first son has no list of IR operations -- also when another node is a
    full match: the loop has no [break]. *)
Theorem type_error_iff (f : Function) :
  find_creation_check f = Raise TypeError
  <-> exists node, In node (function_nodes f) /\ missing_irs node.
Proof.
  unfold find_creation_check. rewrite for_nodes_spec.
  destruct (existsb reads_None (function_nodes f)) eqn:E.
  - split; [intros _|reflexivity].
    apply existsb_exists in E as (node & Hin & Hr).
    exists node. split; [exact Hin|now apply reads_None_missing].
  - split; [discriminate|]. intros (node & Hin & Hm).
    apply reads_None_missing in Hm.
    assert (existsb reads_None (function_nodes f) = true)
      by (apply existsb_exists; eauto).
    congruence.
Qed.

Lemma type_error_iff_witness :
  find_creation_check
    (Scenario.deposit
       [Scenario.if_node Scenario.require_irs; Scenario.bare_if]
       [Scenario.alias_call])
  = Raise TypeError.
Proof.
  apply (proj2 (type_error_iff _)).
  exists Scenario.bare_if. split; [simpl; auto|].
  constructor. reflexivity.
Defined.

(** X5. The guard is matched by class and exact name: a node whose first IR
    operation is a [Condition] on anything but a local variable named
    [_isCreation] (another name, another case, a temporary) is skipped. *)
Theorem guard_name_exact (node : Node) (guard : Var)
        (more_irs : list Operation) (found : bool) :
  node_irs node = Some (Condition guard :: more_irs) ->
  var_class guard <> LocalVariable "_isCreation" ->
  loop_body node found = Ret found.
Proof.
  intros Hirs Hg. rewrite loop_body_spec.
  destruct (reads_None node) eqn:Hr.
  { apply reads_None_missing in Hr. destruct Hr. cbn in Hirs.
    injection Hirs as <- _. contradiction. }
  destruct (accepts node) eqn:Ha; [|now rewrite orb_false_r].
  apply accepts_checked in Ha. destruct Ha. cbn in Hirs.
  injection Hirs as <- _. contradiction.
Qed.

Lemma guard_name_exact_witness :
  loop_body
    (mkNode IF (Some [Condition (mkVar 1 (LocalVariable "_IsCreation"))])
            [Scenario.expression Scenario.require_irs; Scenario.end_if])
    false = Ret false.
Proof.
  eapply guard_name_exact.
  - reflexivity.
  - discriminate.
Defined.

(** X6. The comparison must be [==]: a node whose first son carries a
    [Binary] operation of any other type in second place is rejected. *)
Theorem operator_exact (node e : Node) (others : list Node)
        (o1 o3 : Operation) (type : BinaryType) (l rhs result : Var)
        (found : bool) :
  node_sons node = e :: others ->
  node_irs e = Some [o1; Binary type l rhs result; o3] ->
  type <> EQUAL ->
  loop_body node found = Ret found.
Proof.
  intros Hs He Ht. rewrite loop_body_spec.
  destruct (first_son_shape node e others _ Hs He) as [-> _].
  destruct (accepts node) eqn:Ha; [|now rewrite orb_false_r].
  apply accepts_checked in Ha. destruct Ha. cbn in Hs.
  injection Hs as <- _. cbn in He. injection He as _ <- _ _ _ _.
  now contradiction Ht.
Qed.

Lemma operator_exact_witness :
  loop_body
    (Scenario.if_node
       [Scenario.convert;
        Scenario.compare NOT_EQUAL Scenario.to_ Scenario.tmp_address;
        Scenario.require Scenario.tmp_equal]) false = Ret false.
Proof.
  eapply operator_exact.
  - reflexivity.
  - reflexivity.
  - discriminate.
Defined.

(** X7. First match wins: the function the script verifies is the first
    one named [depositTransaction] of the first contract the lookup
    returns, and the outcome depends on nothing else -- not on the other
    contracts of that name, nor on the functions after it, also when they
    have the same name. *)
Theorem first_match_wins (slither slither' : Slither) (portal : Contract)
        (others : list Contract) (before after : list Function)
        (f : Function) :
  get_contract_from_name slither "OptimismPortal" = Some (portal :: others) ->
  contract_functions portal = (before ++ f :: after)%list ->
  (forall g, In g before -> function_name g <> "depositTransaction") ->
  function_name f = "depositTransaction" ->
  deposit_function_of slither f
  /\ (deposit_function_of slither' f ->
      test_deposit_transaction_integrity slither
      = test_deposit_transaction_integrity slither').
Proof.
  intros Hc Hfs Hbefore Hname.
  assert (Hf : find_deposit_function portal = Some f).
  { unfold find_deposit_function. rewrite Hfs. clear Hfs.
    induction before as [|g before IH]; simpl.
    - now rewrite Hname.
    - destruct (String.eqb_spec (function_name g) "depositTransaction")
        as [E|_].
      + now destruct (Hbefore g (or_introl eq_refl)).
      + apply IH. intros h Hh. apply Hbefore. now right. }
  split; [now exists portal, others|].
  intros (portal' & others' & Hc' & Hf').
  now rewrite !test_spec, Hc, Hf, Hc', Hf'.
Qed.

Lemma first_match_wins_witness :
  test_deposit_transaction_integrity
    (mkSlither (fun _ =>
       Some [mkContract "OptimismPortal"
               [mkFunction "donateETH" [] [];
                Scenario.deposit
                  [Scenario.if_node Scenario.require_irs]
                  [Scenario.alias_call];
                Scenario.deposit [] [Scenario.other_call]];
             mkContract "OptimismPortal" []]))
  = test_deposit_transaction_integrity
      (Scenario.model
         (Scenario.deposit [Scenario.if_node Scenario.require_irs]
                           [Scenario.alias_call])).
Proof.
  eapply (first_match_wins _ _ _ _ [mkFunction "donateETH" [] []]).
  - reflexivity.
  - reflexivity.
  - intros g [<-|[]]. discriminate.
  - reflexivity.
  - eexists; eexists; split; reflexivity.
Defined.

(** X8. The output: the first line is always printed, and "Test passed"
    is printed exactly when the script raises nothing; a failing run
    prints the first line only. *)
Theorem passed_printed_iff (slither : Slither) :
  (snd (test_deposit_transaction_integrity slither) = Ret tt
   /\ fst (test_deposit_transaction_integrity slither)
      = [OUT_RUNNING; OUT_PASSED])
  \/ ((exists e,
          snd (test_deposit_transaction_integrity slither) = Raise e)
      /\ fst (test_deposit_transaction_integrity slither) = [OUT_RUNNING]).
Proof.
  rewrite test_spec.
  destruct (get_contract_from_name slither "OptimismPortal")
    as [[|portal others]|];
    [right; split; [eexists|]; reflexivity| |
     right; split; [eexists|]; reflexivity].
  destruct (find_deposit_function portal) as [f|];
    [|right; split; [eexists|]; reflexivity].
  destruct (calls_differ _ _); [right; split; [eexists|]; reflexivity|].
  destruct (find_creation_check f) as [[|]|e];
    [left; split; reflexivity|right; split; [eexists|]; reflexivity..].
Qed.

(** ** The scan *)

Lemma io_bind_nil {A B : Type} (a : A) (k : A -> IO B) :
  io_bind ([], Ret a) k = k a.
Proof. cbn. now destruct (k a). Qed.

Lemma in_set_cons_same (contract : ScanContract) (set : list nat) :
  in_set contract (scan_id contract :: set) = true.
Proof. unfold in_set. cbn. now rewrite Nat.eqb_refl. Qed.

(** One iteration over a function. *)
Lemma scan_function_spec (contract : ScanContract) (function : ScanFunction)
      (set : list nat) :
  scan_function contract function set =
  if is_property_test function
  then if in_set contract set
       then ([test_line contract function], Ret set)
       else ([contract_header contract; OUT_PROPERTY_TESTS;
              test_line contract function],
             Ret (scan_id contract :: set))
  else ([], Ret set).
Proof.
  unfold scan_function, is_property_test.
  destruct (String.prefix "echidna_" (scan_name function)); [|reflexivity].
  destruct (scan_view function), (scan_pure function); try reflexivity;
    (destruct (scan_visibility function =? "public")%string;
       [|reflexivity]);
    destruct (in_set contract set); reflexivity.
Qed.

(** The functions of one contract. *)
Lemma for_functions_spec (contract : ScanContract)
      (functions : list ScanFunction) (set : list nat) :
  for_functions contract functions set =
  let tests := filter is_property_test functions in
  if in_set contract set
  then (map (test_line contract) tests, Ret set)
  else match tests with
       | [] => ([], Ret set)
       | _ => (contract_header contract :: OUT_PROPERTY_TESTS
               :: map (test_line contract) tests,
               Ret (scan_id contract :: set))
       end.
Proof.
  revert set. induction functions as [|f rest IH]; intros set; cbn zeta.
  - cbn. now destruct (in_set contract set).
  - cbn [for_functions filter]. rewrite scan_function_spec.
    destruct (is_property_test f).
    + destruct (in_set contract set) eqn:Hin.
      * cbn [io_bind]. rewrite IH. cbn zeta. rewrite Hin. reflexivity.
      * cbn [io_bind]. rewrite IH. cbn zeta.
        rewrite in_set_cons_same. reflexivity.
    + rewrite io_bind_nil. apply IH.
Qed.

Lemma scan_contract_spec (contract : ScanContract) (set : list nat) :
  scan_contract contract set =
  if deployable contract
  then for_functions contract (scan_functions contract) set
  else ([], Ret set).
Proof.
  unfold scan_contract, deployable.
  now destruct (has_constructor_arguments contract).
Qed.

(** On a contract that is not yet in the set. *)
Lemma scan_contract_fresh (contract : ScanContract) (set : list nat) :
  in_set contract set = false ->
  scan_contract contract set
  = (contract_block contract,
     Ret (if deployable contract
          then match property_tests contract with
               | [] => set
               | _ => scan_id contract :: set
               end
          else set)).
Proof.
  intros Hin. rewrite scan_contract_spec. unfold contract_block.
  destruct (deployable contract); [|reflexivity].
  rewrite for_functions_spec. cbn zeta. rewrite Hin.
  unfold property_tests.
  now destruct (filter is_property_test (scan_functions contract)).
Qed.

Lemma for_contracts_fresh (cs : list ScanContract) (set : list nat) :
  NoDup (map scan_id cs) ->
  (forall c, In c cs -> in_set c set = false) ->
  exists set',
    for_contracts cs set = (flat_map contract_block cs, Ret set').
Proof.
  revert set. induction cs as [|c rest IH]; intros set Hnd Hfresh.
  - exists set. reflexivity.
  - cbn [map] in Hnd. apply NoDup_cons_iff in Hnd as [Hc Hnd].
    cbn [for_contracts flat_map].
    rewrite (scan_contract_fresh c set (Hfresh c (or_introl eq_refl))).
    cbn [io_bind].
    match goal with
    | |- context [for_contracts rest ?s] => destruct (IH s Hnd) as (set' & ->)
    end; [|exists set'; reflexivity].
    intros c' Hc'.
    assert (Hset : in_set c' set = false) by (apply Hfresh; now right).
    assert (Hne : scan_id c' <> scan_id c).
    { intros E. apply Hc. rewrite <- E. now apply in_map. }
    destruct (deployable c); [|exact Hset].
    destruct (property_tests c); [exact Hset|].
    unfold in_set in *. cbn. rewrite Hset.
    now apply Nat.eqb_neq in Hne as ->.
Qed.

Lemma print_echidna_unfold (s : Analyzer) (out : list string)
      (set : list nat) :
  for_contracts (contracts s) [] = (out, Ret set) ->
  print_echidna_property_tests s = (OUT_ECHIDNA :: out ++ [""], Ret tt).
Proof.
  intros H. unfold print_echidna_property_tests. now rewrite H.
Qed.

Lemma test_line_is_test_line (contract : ScanContract)
      (function : ScanFunction) :
  is_test_line (test_line contract function) = true.
Proof.
  unfold is_test_line, test_line.
  generalize (scan_contract_name contract ++ "."
              ++ scan_full_name function)%string.
  intros rest. cbn. now destruct rest.
Qed.

Lemma contract_header_no_test_line (contract : ScanContract) :
  is_test_line (contract_header contract) = false.
Proof. reflexivity. Qed.

Lemma filter_test_lines (contract : ScanContract)
      (functions : list ScanFunction) :
  filter is_test_line (map (test_line contract) functions)
  = map (test_line contract) functions.
Proof.
  induction functions as [|f rest IH]; [reflexivity|].
  cbn [map filter]. now rewrite test_line_is_test_line, IH.
Qed.

Lemma for_contracts_lines (cs : list ScanContract) (set : list nat) :
  exists out set',
    for_contracts cs set = (out, Ret set')
    /\ filter is_test_line out = flat_map listed_lines cs.
Proof.
  revert set. induction cs as [|c rest IH]; intros set.
  - exists [], set. split; reflexivity.
  - cbn [for_contracts flat_map]. rewrite scan_contract_spec.
    unfold listed_lines at 1. unfold property_tests.
    destruct (deployable c).
    + rewrite for_functions_spec. cbn zeta.
      destruct (in_set c set).
      * cbn [io_bind].
        destruct (IH set) as (out & set' & -> & Hout).
        do 2 eexists. split; [reflexivity|].
        now rewrite filter_app, filter_test_lines, Hout.
      * destruct (filter is_property_test (scan_functions c)) as [|f fs].
        -- rewrite io_bind_nil. apply IH.
        -- cbn [io_bind].
           destruct (IH (scan_id c :: set)) as (out & set' & -> & Hout).
           do 2 eexists. split; [reflexivity|].
           rewrite filter_app. cbn [filter].
           rewrite contract_header_no_test_line.
           change (is_test_line OUT_PROPERTY_TESTS) with false. cbv iota.
           now rewrite filter_test_lines, Hout.
    + rewrite io_bind_nil. apply IH.
Qed.

(** X9. The listing, on a model whose contracts are distinct objects: after
    the banner, contract by contract in the order of the model, a contract
    without constructor arguments that has property tests gives its header
    (once, before its tests), the heading and one line for each of its
    public, view or pure functions whose name starts with [echidna_], in
    their order; every other contract gives nothing; an empty line ends
    the listing. *)
Theorem scan_listing (s : Analyzer) :
  NoDup (map scan_id (contracts s)) ->
  print_echidna_property_tests s
  = (OUT_ECHIDNA :: flat_map contract_block (contracts s) ++ [""], Ret tt).
Proof.
  intros Hnd.
  destruct (for_contracts_fresh (contracts s) [] Hnd) as (set & H);
    [reflexivity|].
  exact (print_echidna_unfold s _ set H).
Qed.

Lemma scan_listing_witness :
  print_echidna_property_tests ScanScenario.analyzer
  = ([OUT_ECHIDNA;
      contract_header ScanScenario.fuzz;
      OUT_PROPERTY_TESTS;
      test_line ScanScenario.fuzz ScanScenario.echidna_balance;
      test_line ScanScenario.fuzz ScanScenario.echidna_pure;
      ""], Ret tt).
Proof.
  apply (scan_listing ScanScenario.analyzer).
  repeat constructor; simpl; intuition discriminate.
Defined.

(** X10. The scan is sound and complete, on any model: the lines of the
    output that list a test (a tab, a dash) are exactly the lines of the
    public, view or pure functions named [echidna_...] of the contracts
    without constructor arguments, in the order of the model. *)
Theorem scan_test_lines (s : Analyzer) :
  filter is_test_line (fst (print_echidna_property_tests s))
  = flat_map listed_lines (contracts s).
Proof.
  destruct (for_contracts_lines (contracts s) []) as (out & set & H & Hout).
  rewrite (print_echidna_unfold s out set H). cbn [fst filter].
  change (is_test_line OUT_ECHIDNA) with false. cbv iota.
  rewrite filter_app, Hout. cbn. apply app_nil_r.
Qed.

(** X11. A contract whose constructor takes arguments is skipped whole:
    the output is the output on the model without such contracts,
    whatever functions they have. *)
Theorem scan_skips_constructor_arguments (s : Analyzer) :
  print_echidna_property_tests s
  = print_echidna_property_tests
      (mkAnalyzer (filter deployable (contracts s)) (lookup s)).
Proof.
  unfold print_echidna_property_tests. cbn [contracts].
  assert (H : forall cs set,
             for_contracts cs set
             = for_contracts (filter deployable cs) set).
  { induction cs as [|c rest IH]; intros set; [reflexivity|].
    cbn [for_contracts filter]. rewrite scan_contract_spec.
    destruct (deployable c) eqn:Hd.
    - cbn [for_contracts]. rewrite scan_contract_spec, Hd.
      destruct (for_functions c (scan_functions c) set) as [out [set'|e]];
        cbn [io_bind]; [now rewrite IH|reflexivity].
    - rewrite io_bind_nil. apply IH. }
  now rewrite H.
Qed.

(** X12. Nothing to list: when no contract without constructor arguments
    has a property test, the scan prints the banner and the empty line,
    and nothing else. *)
Theorem scan_nothing_found (s : Analyzer) :
  (forall c, In c (contracts s) -> deployable c = true ->
             property_tests c = []) ->
  print_echidna_property_tests s = ([OUT_ECHIDNA; ""], Ret tt).
Proof.
  intros Hnone.
  assert (H : forall cs set,
             (forall c, In c cs -> deployable c = true ->
                        property_tests c = []) ->
             for_contracts cs set = ([], Ret set)).
  { induction cs as [|c rest IH]; intros set Hcs; [reflexivity|].
    cbn [for_contracts]. rewrite scan_contract_spec.
    destruct (deployable c) eqn:Hd.
    - rewrite for_functions_spec. cbn zeta.
      fold (property_tests c). rewrite (Hcs c (or_introl eq_refl) Hd).
      destruct (in_set c set); rewrite io_bind_nil; apply IH;
        intros c' Hc'; apply Hcs; now right.
    - rewrite io_bind_nil. apply IH. intros c' Hc'. apply Hcs. now right. }
  exact (print_echidna_unfold s [] [] (H _ _ Hnone)).
Qed.

Lemma scan_nothing_found_witness :
  print_echidna_property_tests ScanScenario.quiet_analyzer
  = ([OUT_ECHIDNA; ""], Ret tt).
Proof.
  apply scan_nothing_found.
  intros c [<-|[<-|[]]] H; [reflexivity|discriminate H].
Defined.

(** X13. [__main__]: the scan never stops the run. The output is the whole
    listing followed by the output of the integrity test, and the run
    ends as the integrity test ends: it raises exactly what the test
    raises. *)
Theorem main_outcome (s : Analyzer) :
  main s
  = ((fst (print_echidna_property_tests s)
      ++ fst (test_deposit_transaction_integrity (lookup s)))%list,
     snd (test_deposit_transaction_integrity (lookup s))).
Proof.
  unfold main.
  destruct (for_contracts_lines (contracts s) []) as (out & set & H & _).
  rewrite (print_echidna_unfold s out set H). cbn [io_bind fst].
  now destruct (test_deposit_transaction_integrity (lookup s)).
Qed.
